(** * OptionPricing: one-step binomial pricing of a European option

    Two shallow embeddings of [binomial_one_step] from
    [src/OptionPricing.py].

    The program as it runs.  [Float64.binomial_one_step] computes on
    binary64 floats, as NumPy's [float64] does: the arithmetic, [np.sqrt]
    and the comparisons are the IEEE 754 operations (Rocq's primitive
    floats), with their rounding, overflow, infinities and NaN.  [np.exp]
    belongs to NumPy, not to this program, and its result depends on the
    platform's implementation: it is a parameter of the model, and
    [Float64.np_exp_sample] gives its values at the few arguments the
    examples below evaluate.

    The program in exact arithmetic.  [binomial_one_step] reads each float
    as the real number it stands for: arithmetic, [np.exp], [np.sqrt] and
    the comparisons are those of [R], and [round(x, 2)] rounds [x] to the
    nearest multiple of [1/100], ties going to the even multiple.  Rounding
    error, overflow and NaN do not exist in this reading; a statement proved
    on it is a statement about the formulas of the program, and says so.

    Errors.  Every failure of the program is a [ValueError] carrying a
    message; both embeddings keep the exception and its message. *)

From Stdlib Require Import Reals Lra Lia ZArith String List Bool.
From Stdlib Require Floats Uint63.
Import ListNotations.

Local Open Scope R_scope.
Local Open Scope string_scope.

(** ** Exceptions and results *)

Inductive exn : Type :=
| ValueError (msg : string).

Definition result (A : Type) : Type := (exn + A)%type.

Definition raise {A : Type} (e : exn) : result A := inl e.
Definition ret {A : Type} (a : A) : result A := inr a.

(** * The program in exact arithmetic *)

(** ** Comparisons, as Python evaluates them to a [bool] *)

Definition Rleb (x y : R) : bool := if Rle_dec x y then true else false.
Definition Rltb (x y : R) : bool := if Rlt_dec x y then true else false.
Definition Reqb (x y : R) : bool := if Req_dec_T x y then true else false.

(** [x in xs] on a list of strings. *)
Definition str_in (x : string) (xs : list string) : bool :=
  existsb (String.eqb x) xs.

(** ** Built-in functions *)

(** [max(a, b)]: the first of the two unless the second is strictly
    greater. *)
Definition py_max (a b : R) : R := if Rltb a b then b else a.

(** Nearest integer, ties to even. *)
Definition rint (x : R) : Z :=
  let n := Int_part x in
  let f := x - IZR n in
  if Rltb f (1 / 2) then n
  else if Rltb (1 / 2) f then (n + 1)%Z
  else if Z.even n then n else (n + 1)%Z.

(** [round(x, ndigits)] for [ndigits >= 0]. *)
Definition round (x : R) (ndigits : nat) : R :=
  IZR (rint (x * 10 ^ ndigits)) / 10 ^ ndigits.

(** ** The pricer *)

Definition msg_option_type : string := "option_type must be 'call' or 'put'".
Definition msg_positive : string := "S, K, T, sigma must be positive".
Definition msg_equal_factors : string :=
  "u and d factors are equal; check parameters".
Definition msg_no_arbitrage : string :=
  "No-arbitrage condition violated: p must be between 0 and 1".

Definition binomial_one_step (S K T r sigma : R) (option_type : string)
  : result R :=
  (* Input validation *)
  if negb (str_in option_type ["call"; "put"]) then
    raise (ValueError msg_option_type)
  else if Rleb S 0 || Rleb K 0 || Rleb T 0 || Rleb sigma 0 then
    raise (ValueError msg_positive)
  else
    (* Calculate up/down factors *)
    let u := exp (sigma * sqrt T) in
    let d := exp (- sigma * sqrt T) in
    if Reqb u d then
      raise (ValueError msg_equal_factors)
    else
      (* Compute stock prices at expiration *)
      let S_u := S * u in
      let S_d := S * d in
      (* Option payoffs at expiration *)
      let '(f_u, f_d) :=
        if String.eqb option_type "call" then
          (py_max (S_u - K) 0, py_max (S_d - K) 0)
        else
          (py_max (K - S_u) 0, py_max (K - S_d) 0) in
      (* Risk-neutral probability *)
      let p := (exp (r * T) - d) / (u - d) in
      if Rltb p 0 || Rltb 1 p then
        raise (ValueError msg_no_arbitrage)
      else
        (* Discount factor and option price *)
        let discount := exp (- r * T) in
        let option_price := discount * (p * f_u + (1 - p) * f_d) in
        ret (round option_price 2).

(** A call site: [option_type] is a keyword parameter with the default
    ['call']; [None] is a call that leaves it out. *)
Definition default_option_type : string := "call".

Definition call_binomial_one_step (S K T r sigma : R)
    (option_type : option string) : result R :=
  binomial_one_step S K T r sigma
    (match option_type with
     | Some ot => ot
     | None => default_option_type
     end).

(** * Specification-side definitions *)

(** ** The pricer as the specification words it

    [price] is the program called on an option type of the enumeration
    [{Call, Put}]; [spec_u] to [spec_price] are steps 3, 5, 6, 7 and 9 of
    the specification's algorithm, written from its text. *)

Inductive OptionType : Type := Call | Put.

Definition option_type_name (o : OptionType) : string :=
  match o with
  | Call => "call"
  | Put => "put"
  end.

Definition price (S K T r sigma : R) (o : OptionType) : result R :=
  binomial_one_step S K T r sigma (option_type_name o).

Definition spec_u (sigma T : R) : R := exp (sigma * sqrt T).
Definition spec_d (sigma T : R) : R := exp (- sigma * sqrt T).

Definition spec_Su (S T sigma : R) : R := S * spec_u sigma T.
Definition spec_Sd (S T sigma : R) : R := S * spec_d sigma T.

Definition spec_fu (S K T sigma : R) (o : OptionType) : R :=
  match o with
  | Call => Rmax (spec_Su S T sigma - K) 0
  | Put => Rmax (K - spec_Su S T sigma) 0
  end.

Definition spec_fd (S K T sigma : R) (o : OptionType) : R :=
  match o with
  | Call => Rmax (spec_Sd S T sigma - K) 0
  | Put => Rmax (K - spec_Sd S T sigma) 0
  end.

Definition spec_p (T r sigma : R) : R :=
  (exp (r * T) - spec_d sigma T) / (spec_u sigma T - spec_d sigma T).

Definition spec_discount (T r : R) : R := exp (- r * T).

Definition spec_price (S K T r sigma : R) (o : OptionType) : R :=
  round
    (spec_discount T r
     * (spec_p T r sigma * spec_fu S K T sigma o
        + (1 - spec_p T r sigma) * spec_fd S K T sigma o)) 2.

(** The error taxonomy of the specification, read off the message of the
    raised [ValueError]. *)
Inductive ErrorCategory : Type :=
| InvalidArgument
| DegenerateModel
| ArbitrageViolation.

Definition category (e : exn) : option ErrorCategory :=
  match e with
  | ValueError msg =>
      if String.eqb msg msg_option_type then Some InvalidArgument
      else if String.eqb msg msg_positive then Some InvalidArgument
      else if String.eqb msg msg_equal_factors then Some DegenerateModel
      else if String.eqb msg msg_no_arbitrage then Some ArbitrageViolation
      else None
  end.

(** [raises c res]: the call ended in an error of category [c]. *)
Definition raises (c : ErrorCategory) (res : result R) : Prop :=
  exists e, res = raise e /\ category e = Some c.

(** The option type is one the program accepts. *)
Definition known_option_type (option_type : string) : Prop :=
  option_type = "call" \/ option_type = "put".

(** Some numeric input that has to be positive is not. *)
Definition nonpositive_input (S K T sigma : R) : Prop :=
  S <= 0 \/ K <= 0 \/ T <= 0 \/ sigma <= 0.

(** The branches of [binomial_one_step], each with the condition under which
    the program takes it and the result it then gives. *)
Inductive outcome (S K T r sigma : R) (option_type : string)
  : result R -> Prop :=
| out_option_type :
    ~ known_option_type option_type ->
    outcome S K T r sigma option_type (raise (ValueError msg_option_type))
| out_positive :
    known_option_type option_type ->
    nonpositive_input S K T sigma ->
    outcome S K T r sigma option_type (raise (ValueError msg_positive))
| out_equal_factors :
    known_option_type option_type ->
    0 < S -> 0 < K -> 0 < T -> 0 < sigma ->
    spec_u sigma T = spec_d sigma T ->
    outcome S K T r sigma option_type (raise (ValueError msg_equal_factors))
| out_no_arbitrage :
    known_option_type option_type ->
    0 < S -> 0 < K -> 0 < T -> 0 < sigma ->
    spec_u sigma T <> spec_d sigma T ->
    spec_p T r sigma < 0 \/ 1 < spec_p T r sigma ->
    outcome S K T r sigma option_type (raise (ValueError msg_no_arbitrage))
| out_price (o : OptionType) :
    option_type = option_type_name o ->
    0 < S -> 0 < K -> 0 < T -> 0 < sigma ->
    spec_u sigma T <> spec_d sigma T ->
    0 <= spec_p T r sigma <= 1 ->
    outcome S K T r sigma option_type (ret (spec_price S K T r sigma o)).

(** * The program on binary64 floats *)

Module Float64.

Import PrimFloat SpecFloat FloatOps.
Local Open Scope float_scope.

(** [max(a, b)]: the first of the two unless the second is strictly
    greater; a NaN first argument is returned as it is. *)
Definition py_max (a b : float) : float := if a <? b then b else a.

(** The integer nearest to [a / b] for [b > 0], ties to even. *)
Definition nearest_even (a b : Z) : Z :=
  let q := (a / b)%Z in
  match (2 * (a mod b) ?= b)%Z with
  | Lt => q
  | Gt => (q + 1)%Z
  | Eq => if Z.even q then q else (q + 1)%Z
  end.

(** [np.rint]: the nearest integer, ties to even, as a float.  A finite
    float is [m * 2^e]; with [e >= 0] it is an integer already, otherwise
    the nearest integer to [m / 2^(-e)] is below [2^53] and converts
    exactly.  Zeros, infinities and NaN are returned as they are, and the
    sign is kept. *)
Definition rint (x : float) : float :=
  match Prim2SF x with
  | S754_finite s m e =>
      if (0 <=? e)%Z then x
      else
        let n := of_uint63 (Uint63.of_Z (nearest_even (Zpos m) (2 ^ (- e)))) in
        if s then - n else n
  | _ => x
  end.

(** [round(x, ndigits)] on a NumPy [float64], [ndigits >= 0]: scale by
    [10^ndigits], round to the nearest integer, scale back. *)
Definition round (x : float) (ndigits : nat) : float :=
  let scale := of_uint63 (Uint63.of_Z (10 ^ Z.of_nat ndigits)) in
  rint (x * scale) / scale.

Section Pricer.

Variable np_exp : float -> float.

Definition binomial_one_step (S K T r sigma : float) (option_type : string)
  : result float :=
  (* Input validation *)
  if negb (str_in option_type ["call"; "put"]) then
    raise (ValueError msg_option_type)
  else if (S <=? 0) || (K <=? 0) || (T <=? 0) || (sigma <=? 0) then
    raise (ValueError msg_positive)
  else
    (* Calculate up/down factors *)
    let u := np_exp (sigma * sqrt T) in
    let d := np_exp (- sigma * sqrt T) in
    if u =? d then
      raise (ValueError msg_equal_factors)
    else
      (* Compute stock prices at expiration *)
      let S_u := S * u in
      let S_d := S * d in
      (* Option payoffs at expiration *)
      let '(f_u, f_d) :=
        if String.eqb option_type "call" then
          (py_max (S_u - K) 0, py_max (S_d - K) 0)
        else
          (py_max (K - S_u) 0, py_max (K - S_d) 0) in
      (* Risk-neutral probability *)
      let p := (np_exp (r * T) - d) / (u - d) in
      if (p <? 0) || (1 <? p) then
        raise (ValueError msg_no_arbitrage)
      else
        (* Discount factor and option price *)
        let discount := np_exp (- r * T) in
        let option_price := discount * (p * f_u + (1 - p) * f_d) in
        ret (round option_price 2).

End Pricer.

(** [raises c res]: the call ended in an error of category [c]. *)
Definition raises (c : ErrorCategory) (res : result float) : Prop :=
  exists e, res = raise e /\ category e = Some c.

(** One of the tests [S <= 0], [K <= 0], [T <= 0], [sigma <= 0] holds. *)
Definition nonpositive_input (S K T sigma : float) : Prop :=
  (S <=? 0) = true \/ (K <=? 0) = true \/ (T <=? 0) = true
  \/ (sigma <=? 0) = true.

(** [np.exp] at the arguments of the examples: [exp(0) = 1]; [exp(0.5)]
    and [exp(-0.5)] rounded to the nearest float; [exp(x) = 1.0] for
    [|x| = 2^-60], far below half an ulp of 1; overflow to [inf] at 1000
    and 2000, underflow to 0 at -1000 and -2000.  Other arguments are not
    tabulated and give NaN. *)
Definition np_exp_sample (x : float) : float :=
  if x =? 0 then 1
  else if x =? 0.5 then 0x1.a61298e1e069cp+0
  else if x =? -0.5 then 0x1.368b2fc6f960ap-1
  else if (x =? 0x1p-60) || (x =? -0x1p-60) then 1
  else if (x =? 1000) || (x =? 2000) then infinity
  else if (x =? -1000) || (x =? -2000) then 0
  else nan.

(** [nonneg f]: the float is zero, NaN, or has a positive sign; these are
    the floats [x] for which [x < 0] is false. *)
Definition nonneg (f : spec_float) : bool :=
  match f with
  | S754_zero _ => true
  | S754_nan => true
  | S754_infinity s => negb s
  | S754_finite s _ _ => negb s
  end.


End Float64.

(** * Properties *)

(** ** Comparisons *)

Lemma Rleb_true (x y : R) : Rleb x y = true <-> x <= y.
Proof. unfold Rleb; destruct (Rle_dec x y); split; congruence || tauto. Qed.

Lemma Rleb_false (x y : R) : Rleb x y = false <-> y < x.
Proof.
  unfold Rleb; destruct (Rle_dec x y); split; intros; try congruence; lra.
Qed.

Lemma Rltb_true (x y : R) : Rltb x y = true <-> x < y.
Proof. unfold Rltb; destruct (Rlt_dec x y); split; congruence || tauto. Qed.

Lemma Rltb_false (x y : R) : Rltb x y = false <-> y <= x.
Proof.
  unfold Rltb; destruct (Rlt_dec x y); split; intros; try congruence; lra.
Qed.

Lemma Reqb_true (x y : R) : Reqb x y = true <-> x = y.
Proof. unfold Reqb; destruct (Req_dec_T x y); split; congruence || tauto. Qed.

Lemma Reqb_false (x y : R) : Reqb x y = false <-> x <> y.
Proof. unfold Reqb; destruct (Req_dec_T x y); split; congruence || tauto. Qed.

Lemma py_max_Rmax (a b : R) : py_max a b = Rmax a b.
Proof.
  unfold py_max, Rmax.
  destruct (Rltb a b) eqn:E; destruct (Rle_dec a b) as [H | H]; trivial.
  - apply Rltb_true in E; lra.
  - apply Rltb_false in E; lra.
Qed.

(** ** Rounding *)

Section Rounding.

Lemma rint_cases (x : R) :
  rint x = Int_part x \/ rint x = (Int_part x + 1)%Z.
Proof.
  unfold rint.
  destruct (Rltb _ _); [now left |].
  destruct (Rltb _ _); [now right |].
  destruct (Z.even _); [now left | now right].
Qed.




(** Ties go to the even neighbour: [round(0.5) = 0], [round(1.5) = 2]. *)
Example rint_ties : rint (1 / 2) = 0%Z /\ rint (3 / 2) = 2%Z.
Proof.
  assert (H0 : Int_part (1 / 2) = 0%Z) by (symmetry; apply Int_part_spec; lra).
  assert (H1 : Int_part (3 / 2) = 1%Z) by (symmetry; apply Int_part_spec; lra).
  unfold rint. rewrite H0, H1. split.
  - replace (Rltb (1 / 2 - 0) (1 / 2)) with false
      by (symmetry; apply Rltb_false; lra).
    replace (Rltb (1 / 2) (1 / 2 - 0)) with false
      by (symmetry; apply Rltb_false; lra).
    reflexivity.
  - replace (Rltb (3 / 2 - 1) (1 / 2)) with false
      by (symmetry; apply Rltb_false; lra).
    replace (Rltb (1 / 2) (3 / 2 - 1)) with false
      by (symmetry; apply Rltb_false; lra).
    reflexivity.
Qed.




End Rounding.

(** ** The branches of the pricer *)

Lemma str_in_call_put (option_type : string) :
  str_in option_type ["call"; "put"] = true <-> known_option_type option_type.
Proof.
  unfold str_in, known_option_type; simpl.
  rewrite orb_false_r, orb_true_iff, !String.eqb_eq. tauto.
Qed.

Lemma known_option_type_name (o : OptionType) :
  known_option_type (option_type_name o).
Proof. destruct o; [left | right]; reflexivity. Qed.

Lemma known_option_type_inv (option_type : string) :
  known_option_type option_type ->
  exists o, option_type = option_type_name o.
Proof. intros [-> | ->]; [exists Call | exists Put]; reflexivity. Qed.


Lemma nonpositive_test (S K T sigma : R) :
  Rleb S 0 || Rleb K 0 || Rleb T 0 || Rleb sigma 0 = true
  <-> nonpositive_input S K T sigma.
Proof.
  unfold nonpositive_input. rewrite !orb_true_iff, !Rleb_true. tauto.
Qed.

Lemma positive_test (S K T sigma : R) :
  Rleb S 0 || Rleb K 0 || Rleb T 0 || Rleb sigma 0 = false
  <-> 0 < S /\ 0 < K /\ 0 < T /\ 0 < sigma.
Proof. rewrite !orb_false_iff, !Rleb_false. tauto. Qed.

Lemma positive_not_nonpositive (S K T sigma : R) :
  0 < S -> 0 < K -> 0 < T -> 0 < sigma -> ~ nonpositive_input S K T sigma.
Proof. unfold nonpositive_input; lra. Qed.

Lemma arbitrage_test (p : R) :
  Rltb p 0 || Rltb 1 p = true <-> p < 0 \/ 1 < p.
Proof. rewrite orb_true_iff, !Rltb_true. tauto. Qed.

Lemma no_arbitrage_test (p : R) :
  Rltb p 0 || Rltb 1 p = false <-> 0 <= p <= 1.
Proof. rewrite orb_false_iff, !Rltb_false. tauto. Qed.

(** The program takes one of the five branches of [outcome]. *)
Lemma binomial_one_step_outcome (S K T r sigma : R) (option_type : string) :
  outcome S K T r sigma option_type
    (binomial_one_step S K T r sigma option_type).
Proof.
  unfold binomial_one_step.
  destruct (str_in option_type ["call"; "put"]) eqn:Etype; simpl.
  2: { apply out_option_type. rewrite <- str_in_call_put. congruence. }
  apply str_in_call_put in Etype.
  destruct (Rleb S 0 || Rleb K 0 || Rleb T 0 || Rleb sigma 0) eqn:Epos.
  { apply out_positive; [assumption | now apply nonpositive_test]. }
  apply positive_test in Epos. destruct Epos as (HS & HK & HT & Hsigma).
  destruct (Reqb _ _) eqn:Eud.
  { apply Reqb_true in Eud. now apply out_equal_factors. }
  apply Reqb_false in Eud.
  destruct (known_option_type_inv _ Etype) as [o ->].
  assert (Hpay :
    (if String.eqb (option_type_name o) "call"
     then (py_max (S * exp (sigma * sqrt T) - K) 0,
           py_max (S * exp (- sigma * sqrt T) - K) 0)
     else (py_max (K - S * exp (sigma * sqrt T)) 0,
           py_max (K - S * exp (- sigma * sqrt T)) 0))
    = (spec_fu S K T sigma o, spec_fd S K T sigma o)).
  { destruct o; simpl; now rewrite !py_max_Rmax. }
  rewrite Hpay.
  destruct (Rltb _ 0 || Rltb 1 _) eqn:Ep.
  { apply arbitrage_test in Ep.
    now apply out_no_arbitrage; try apply known_option_type_name. }
  apply no_arbitrage_test in Ep.
  now apply (out_price S K T r sigma (option_type_name o) o).
Qed.

(** ** The up and down factors *)

Section Factors.

Variables sigma T : R.
Hypothesis sigma_pos : 0 < sigma.
Hypothesis T_pos : 0 < T.

Lemma spread_pos : 0 < sigma * sqrt T.
Proof. apply Rmult_lt_0_compat; [assumption | now apply sqrt_lt_R0]. Qed.

Lemma spec_u_gt_1 : 1 < spec_u sigma T.
Proof.
  unfold spec_u. rewrite <- exp_0. apply exp_increasing, spread_pos.
Qed.

Lemma spec_d_lt_1 : spec_d sigma T < 1.
Proof.
  unfold spec_d. rewrite <- exp_0. apply exp_increasing.
  pose proof spread_pos. lra.
Qed.


(** The risk-neutral probability against the interest earned over the
    period. *)
Variable r : R.






End Factors.

(** ** Success *)




(** ** Exact values of the discounted expected payoff *)


Section ExactValues.

Variables S K T r sigma : R.
Hypothesis S_pos : 0 < S.
Hypothesis T_pos : 0 < T.
Hypothesis sigma_pos : 0 < sigma.

Let p := spec_p T r sigma.






End ExactValues.

(** ** Errors and their categories *)

Lemma category_option_type :
  category (ValueError msg_option_type) = Some InvalidArgument.
Proof. reflexivity. Qed.

Lemma category_positive :
  category (ValueError msg_positive) = Some InvalidArgument.
Proof. reflexivity. Qed.

Lemma category_equal_factors :
  category (ValueError msg_equal_factors) = Some DegenerateModel.
Proof. reflexivity. Qed.

Lemma category_no_arbitrage :
  category (ValueError msg_no_arbitrage) = Some ArbitrageViolation.
Proof. reflexivity. Qed.

Lemma raises_raise (c : ErrorCategory) (e : exn) :
  raises c (raise e) <-> category e = Some c.
Proof.
  unfold raises, raise. split.
  - intros (e' & He & Hc). now injection He as ->.
  - intros Hc. now exists e.
Qed.

Lemma raises_ret (c : ErrorCategory) (v : R) : ~ raises c (ret v).
Proof. intros (e & He & _). discriminate He. Qed.

(** Rewrites [raises c (raise (ValueError m))], for [m] one of the four
    messages of the program, into an equation between categories. *)
Ltac categorize :=
  rewrite ?raises_raise, ?category_option_type, ?category_positive,
    ?category_equal_factors, ?category_no_arbitrage.

Lemma raises_invalid_argument (S K T r sigma : R) (option_type : string) :
  raises InvalidArgument (binomial_one_step S K T r sigma option_type)
  <-> ~ known_option_type option_type \/ nonpositive_input S K T sigma.
Proof.
  destruct (binomial_one_step_outcome S K T r sigma option_type)
    as [Hbad | Hk Hnp | Hk HS HK HT Hsigma Heq
        | Hk HS HK HT Hsigma Hneq Hp | o Ho HS HK HT Hsigma Hneq Hp];
    categorize; try (split; [tauto | reflexivity]).
  - split; [discriminate |].
    pose proof (positive_not_nonpositive S K T sigma). tauto.
  - split; [discriminate |].
    pose proof (positive_not_nonpositive S K T sigma). tauto.
  - split; [intros H; now apply raises_ret in H |].
    pose proof (positive_not_nonpositive S K T sigma).
    pose proof (known_option_type_name o). subst option_type. tauto.
Qed.

Lemma raises_degenerate_model (S K T r sigma : R) (option_type : string) :
  raises DegenerateModel (binomial_one_step S K T r sigma option_type)
  <-> known_option_type option_type
      /\ (0 < S /\ 0 < K /\ 0 < T /\ 0 < sigma)
      /\ spec_u sigma T = spec_d sigma T.
Proof.
  destruct (binomial_one_step_outcome S K T r sigma option_type)
    as [Hbad | Hk Hnp | Hk HS HK HT Hsigma Heq
        | Hk HS HK HT Hsigma Hneq Hp | o Ho HS HK HT Hsigma Hneq Hp];
    categorize.
  - split; [discriminate | tauto].
  - split; [discriminate |]. unfold nonpositive_input in Hnp. lra.
  - split; [tauto | reflexivity].
  - split; [discriminate | tauto].
  - split; [intros H; now apply raises_ret in H | tauto].
Qed.


(** ** The demonstration contract

    The program's example: spot 100, strike 100, one year, rate 0.05,
    volatility 0.2. *)





(** * The claims

    Claims C3 and C6 and the counter-examples to C4, C7 and C9 are about
    the program on floats and come last. *)



(** C2. The pricer raises an InvalidArgument error exactly when the option
    type is neither ['call'] nor ['put'] or one of spot, strike, time to
    expiry, volatility is [<= 0].  The option type is checked first: a bad
    option type gives the option-type error whatever the numbers are, and
    the positivity error is given only for a known option type.  A call
    that raises returns no value. *)
Theorem invalid_argument_iff (S K T r sigma : R) (option_type : string) :
  (raises InvalidArgument (binomial_one_step S K T r sigma option_type)
   <-> ~ known_option_type option_type \/ nonpositive_input S K T sigma)
  /\ (~ known_option_type option_type ->
      binomial_one_step S K T r sigma option_type
      = raise (ValueError msg_option_type))
  /\ (known_option_type option_type ->
      nonpositive_input S K T sigma ->
      binomial_one_step S K T r sigma option_type
      = raise (ValueError msg_positive))
  /\ (raises InvalidArgument (binomial_one_step S K T r sigma option_type) ->
      forall v, binomial_one_step S K T r sigma option_type <> ret v).
Proof.
  split; [exact (raises_invalid_argument S K T r sigma option_type) |].
  repeat split.
  - intros Hbad.
    destruct (binomial_one_step_outcome S K T r sigma option_type);
      trivial; try contradiction.
    destruct Hbad. subst option_type. apply known_option_type_name.
  - intros Hk Hnp.
    destruct (binomial_one_step_outcome S K T r sigma option_type);
      trivial; try contradiction;
      destruct (positive_not_nonpositive S K T sigma); assumption.
  - intros Hraise v Hret. rewrite Hret in Hraise.
    now apply raises_ret in Hraise.
Qed.







(** C8. With positive volatility and time to expiry, [u > 1 > d], hence
    [u <> d], and no call with these two arguments raises a
    DegenerateModel error. *)
Theorem degenerate_unreachable (sigma T : R) :
  0 < sigma -> 0 < T ->
  spec_d sigma T < 1 < spec_u sigma T
  /\ spec_u sigma T <> spec_d sigma T
  /\ forall S K r option_type,
       ~ raises DegenerateModel (binomial_one_step S K T r sigma option_type).
Proof.
  intros Hsigma HT.
  pose proof (spec_u_gt_1 sigma T Hsigma HT).
  pose proof (spec_d_lt_1 sigma T Hsigma HT).
  repeat split; try lra.
  intros S K r option_type Hraise.
  apply raises_degenerate_model in Hraise. lra.
Qed.

Lemma degenerate_unreachable_witness :
  spec_d (2 / 10) 1 < 1 < spec_u (2 / 10) 1
  /\ spec_u (2 / 10) 1 <> spec_d (2 / 10) 1.
Proof.
  assert (Hsigma : 0 < 2 / 10) by lra.
  destruct (degenerate_unreachable (2 / 10) 1 Hsigma Rlt_0_1) as (H1 & H2 & _).
  now split.
Defined.



(** C10. The option type defaults to ['call']: a call that leaves the
    option type out gives what the same call with ['call'] gives, which is
    the price of the call option. *)
Theorem option_type_default (S K T r sigma : R) :
  call_binomial_one_step S K T r sigma None
  = call_binomial_one_step S K T r sigma (Some "call")
  /\ call_binomial_one_step S K T r sigma None = price S K T r sigma Call.
Proof. split; reflexivity. Qed.


(** * The program on floats *)

Section Float64Arithmetic.

Import PrimFloat SpecFloat FloatOps FloatAxioms.
Import Float64.
Local Open Scope float_scope.

(** ** Signs of the IEEE operations *)

Lemma ltb_0_nonneg (x : float) : (x <? 0) = false <-> nonneg (Prim2SF x) = true.
Proof.
  rewrite ltb_spec. change (Prim2SF 0) with (S754_zero false).
  destruct (Prim2SF x) as [s | s | | s m e]; try destruct s; cbn;
    split; intros H; trivial; discriminate H.
Qed.

Lemma nonneg_binary_round_aux (m e : Z) (l : location) :
  nonneg (binary_round_aux prec emax false m e l) = true.
Proof.
  unfold binary_round_aux.
  destruct (shr_fexp prec emax m e l) as [mrs' e'].
  destruct (shr_fexp prec emax _ e' loc_Exact) as [mrs'' e''].
  destruct (shr_m mrs''); trivial.
  destruct (e'' <=? emax - prec)%Z; reflexivity.
Qed.

Lemma nonneg_binary_round (m : positive) (e : Z) :
  nonneg (binary_round prec emax false m e) = true.
Proof.
  unfold binary_round. destruct (shl_align m e _) as [mz ez].
  apply nonneg_binary_round_aux.
Qed.

Lemma nonneg_binary_normalize (m e : Z) :
  (0 <= m)%Z -> nonneg (binary_normalize prec emax m e false) = true.
Proof.
  intros Hm. destruct m as [| m | m]; simpl; trivial; [| lia].
  apply nonneg_binary_round.
Qed.

Lemma nonneg_SFmul (a b : spec_float) :
  nonneg a = true -> nonneg b = true -> nonneg (SF64mul a b) = true.
Proof.
  destruct a as [sa | sa | | sa ma ea], b as [sb | sb | | sb mb eb];
    simpl; trivial; try (destruct sa, sb; simpl; congruence).
  destruct sa, sb; simpl; try discriminate. intros _ _.
  apply nonneg_binary_round_aux.
Qed.

Lemma nonneg_SFadd (a b : spec_float) :
  nonneg a = true -> nonneg b = true -> nonneg (SF64add a b) = true.
Proof.
  destruct a as [sa | sa | | sa ma ea], b as [sb | sb | | sb mb eb];
    simpl; trivial; try (destruct sa, sb; simpl; congruence).
  destruct sa, sb; simpl; try discriminate. intros _ _.
  apply nonneg_binary_round.
Qed.

Lemma nonneg_SFdiv (a : spec_float) (mb : positive) (eb : Z) :
  nonneg a = true -> nonneg (SF64div a (S754_finite false mb eb)) = true.
Proof.
  destruct a as [sa | sa | | sa ma ea]; simpl; trivial;
    try (destruct sa; simpl; congruence).
  destruct sa; simpl; try discriminate. intros _.
  destruct (SFdiv_core_binary prec emax (Z.pos ma) ea (Z.pos mb) eb)
    as [[mz ez] lz].
  apply nonneg_binary_round_aux.
Qed.

(** ** [1 - p] for a probability *)

Lemma digits2_pos_bound (m : positive) :
  (Z.pos m < 2 ^ Z.pos (digits2_pos m))%Z.
Proof.
  induction m as [m IH | m IH |]; simpl digits2_pos;
    rewrite ?Pos2Z.inj_succ, ?Z.pow_succ_r by lia; lia.
Qed.

Lemma iter_xO_pow2 (m d : positive) :
  Z.pos (Pos.iter xO m d) = (Z.pos m * 2 ^ Z.pos d)%Z.
Proof.
  induction d as [| d IH] using Pos.peano_ind.
  - simpl. lia.
  - rewrite Pos.iter_succ, Pos2Z.inj_succ, Z.pow_succ_r by lia.
    rewrite Pos2Z.inj_xO, IH. ring.
Qed.

(** The mantissa of a float has at most 53 bits. *)
Lemma valid_mantissa_bound (s : bool) (m : positive) (e : Z) :
  valid_binary (S754_finite s m e) = true -> (Z.pos m < 2 ^ 53)%Z.
Proof.
  unfold SpecFloat.valid_binary, bounded, canonical_mantissa, fexp.
  intros H. apply andb_prop in H. destruct H as [H _].
  apply Z.eqb_eq in H.
  assert (Hd : (Z.pos (digits2_pos m) <= 53)%Z) by (unfold prec in H; lia).
  pose proof (digits2_pos_bound m) as Hm.
  apply Z.lt_le_trans with (1 := Hm).
  apply Z.pow_le_mono_r; lia.
Qed.

Lemma nonneg_one_minus (p : float) :
  (p <? 0) = false -> (1 <? p) = false -> (1 - p <? 0) = false.
Proof.
  rewrite !ltb_0_nonneg, sub_spec, ltb_spec.
  pose proof (Prim2SF_valid p) as Hvalid.
  change (Prim2SF 1) with (S754_finite false 4503599627370496 (-52)).
  destruct (Prim2SF p) as [s | s | | s m e]; trivial.
  - destruct s; cbn; intros H1 H2; discriminate.
  - destruct s; [discriminate |]. intros _.
    apply valid_mantissa_bound in Hvalid.
    unfold SFltb, SFcompare, SF64sub, SFsub.
    destruct (Z.compare_spec (-52) e) as [He | He | He]; [| discriminate |].
    + (* same exponent as 1: the mantissa is at most that of 1 *)
      subst e.
      change (Pos.compare_cont Eq 4503599627370496 m)
        with (4503599627370496 ?= m)%positive.
      intros Hm. apply nonneg_binary_normalize.
      rewrite Z.min_id. unfold shl_align. rewrite Z.sub_diag.
      cbn [fst cond_Zopp]. clear Hvalid.
      destruct (Pos.compare_spec 4503599627370496 m) as [E | E | E];
        try discriminate.
      * rewrite <- E. apply Z.le_0_sub, Z.le_refl.
      * apply Z.le_0_sub, Z.lt_le_incl. exact E.
    + (* smaller exponent: 53 bits of mantissa stay below 1 *)
      intros _. apply nonneg_binary_normalize.
      rewrite Z.min_r by lia. unfold shl_align. rewrite Z.sub_diag.
      destruct (e - -52)%Z as [| d | d] eqn:Hd; try lia.
      simpl fst. rewrite iter_xO_pow2.
      assert (Hpow : (2 ^ 1 <= 2 ^ Z.pos d)%Z)
        by (apply Z.pow_le_mono_r; lia).
      change (2 ^ 1)%Z with 2%Z in Hpow.
      change (2 ^ 53)%Z with 9007199254740992%Z in Hvalid.
      unfold cond_Zopp. nia.
Qed.

(** ** Rounding and [max] keep the sign *)

Lemma nonneg_of_uint63 (n : PrimInt63.int) :
  nonneg (Prim2SF (of_uint63 n)) = true.
Proof.
  rewrite of_uint63_spec. apply nonneg_binary_normalize.
  apply Uint63.to_Z_bounded.
Qed.

Lemma nonneg_rint (x : float) : (x <? 0) = false -> (rint x <? 0) = false.
Proof.
  rewrite !ltb_0_nonneg. unfold rint.
  destruct (Prim2SF x) as [s | s | | s m e] eqn:Hx;
    try (now rewrite Hx).
  destruct (0 <=? e)%Z; [now rewrite Hx |].
  destruct s; [discriminate |]. intros _. apply nonneg_of_uint63.
Qed.

Lemma nonneg_mul (a b : float) :
  (a <? 0) = false -> (b <? 0) = false -> (a * b <? 0) = false.
Proof. rewrite !ltb_0_nonneg, mul_spec. apply nonneg_SFmul. Qed.

Lemma nonneg_add (a b : float) :
  (a <? 0) = false -> (b <? 0) = false -> (a + b <? 0) = false.
Proof. rewrite !ltb_0_nonneg, add_spec. apply nonneg_SFadd. Qed.

Lemma nonneg_round_2 (x : float) :
  (x <? 0) = false -> (round x 2 <? 0) = false.
Proof.
  intros Hx. unfold round.
  change (of_uint63 (Uint63.of_Z (10 ^ Z.of_nat 2))) with 100.
  assert (H : (rint (x * 100) <? 0) = false)
    by now apply nonneg_rint, nonneg_mul.
  revert H. rewrite !ltb_0_nonneg, div_spec.
  change (Prim2SF 100) with (S754_finite false 7036874417766400 (-46)).
  apply nonneg_SFdiv.
Qed.

Lemma nonneg_py_max_0 (a : float) : (py_max a 0 <? 0) = false.
Proof.
  unfold py_max. destruct (a <? 0) eqn:Ha; [reflexivity | exact Ha].
Qed.

(** ** The branches of the pricer on floats *)

Section Branches.

Variable np_exp : float -> float.
Variables S K T r sigma : float.
Variable option_type : string.

Let u := np_exp (sigma * sqrt T).
Let d := np_exp (- sigma * sqrt T).
Let p := (np_exp (r * T) - d) / (u - d).
Let f_u :=
  if String.eqb option_type "call" then py_max (S * u - K) 0
  else py_max (K - S * u) 0.
Let f_d :=
  if String.eqb option_type "call" then py_max (S * d - K) 0
  else py_max (K - S * d) 0.
Let res := Float64.binomial_one_step np_exp S K T r sigma option_type.

Lemma f64_nonpositive_test :
  (S <=? 0) || (K <=? 0) || (T <=? 0) || (sigma <=? 0) = true
  <-> Float64.nonpositive_input S K T sigma.
Proof.
  unfold Float64.nonpositive_input. rewrite !orb_true_iff. tauto.
Qed.

(** The program takes exactly one of its five exits, each under the
    conjunction of the tests that lead to it. *)
Lemma f64_branches :
  (~ known_option_type option_type
   /\ res = raise (ValueError msg_option_type))
  \/ (known_option_type option_type
      /\ Float64.nonpositive_input S K T sigma
      /\ res = raise (ValueError msg_positive))
  \/ (known_option_type option_type
      /\ ~ Float64.nonpositive_input S K T sigma
      /\ (u =? d) = true
      /\ res = raise (ValueError msg_equal_factors))
  \/ (known_option_type option_type
      /\ ~ Float64.nonpositive_input S K T sigma
      /\ (u =? d) = false
      /\ (p <? 0) || (1 <? p) = true
      /\ res = raise (ValueError msg_no_arbitrage))
  \/ (known_option_type option_type
      /\ ~ Float64.nonpositive_input S K T sigma
      /\ (u =? d) = false
      /\ (p <? 0) || (1 <? p) = false
      /\ res
         = ret (round (np_exp (- r * T) * (p * f_u + (1 - p) * f_d)) 2)).
Proof.
  subst res. unfold Float64.binomial_one_step.
  destruct (str_in option_type ["call"; "put"]) eqn:Etype; simpl negb; cbv iota.
  2: { left. split; trivial. rewrite <- str_in_call_put. congruence. }
  apply str_in_call_put in Etype. right.
  destruct ((S <=? 0) || (K <=? 0) || (T <=? 0) || (sigma <=? 0)) eqn:Epos.
  { left. now rewrite <- f64_nonpositive_test. }
  assert (Hpos : ~ Float64.nonpositive_input S K T sigma)
    by (rewrite <- f64_nonpositive_test; congruence).
  right. fold u d.
  destruct (u =? d) eqn:Eud; [now left |]. right.
  subst f_u f_d.
  destruct (String.eqb option_type "call"); cbv zeta; fold p;
    (destruct ((p <? 0) || (1 <? p)) eqn:Ep; [now left | now right]).
Qed.

End Branches.

(** ** NaN is absorbing *)

Lemma Prim2SF_nan (x : float) : Prim2SF x = S754_nan -> x = nan.
Proof. intros H. now apply Prim2SF_inj. Qed.

Lemma mul_nan_l (x : float) : nan * x = nan.
Proof. apply Prim2SF_nan. now rewrite mul_spec. Qed.

Lemma mul_nan_r (x : float) : x * nan = nan.
Proof.
  apply Prim2SF_nan. rewrite mul_spec.
  change (Prim2SF nan) with S754_nan. now destruct (Prim2SF x).
Qed.

Lemma add_nan_l (x : float) : nan + x = nan.
Proof. apply Prim2SF_nan. now rewrite add_spec. Qed.




Lemma round_nan_2 : round nan 2 = nan.
Proof. vm_compute. reflexivity. Qed.

(** A float for which [x < 0] is false is NaN or at least 0. *)
Lemma not_negative_cases (x : float) :
  (x <? 0) = false -> (0 <=? x) = true \/ x = nan.
Proof.
  rewrite ltb_0_nonneg, leb_spec.
  change (Prim2SF 0) with (S754_zero false).
  destruct (Prim2SF x) as [s | s | | s m e] eqn:Hx;
    try (destruct s; try discriminate; now left).
  intros _. right. apply Prim2SF_inj. now rewrite Hx.
Qed.

Lemma np_exp_sample_nonneg (x : float) : (np_exp_sample x <? 0) = false.
Proof.
  unfold np_exp_sample.
  repeat match goal with
         | |- ((if ?c then _ else _) <? 0) = false => destruct c
         end; reflexivity.
Qed.

(** ** Errors and their categories *)

Lemma f64_raises_raise (c : ErrorCategory) (e : exn) :
  Float64.raises c (raise e) <-> category e = Some c.
Proof.
  unfold Float64.raises, raise. split.
  - intros (e' & He & Hc). now injection He as ->.
  - intros Hc. now exists e.
Qed.

Lemma f64_raises_ret (c : ErrorCategory) (v : float) :
  ~ Float64.raises c (ret v).
Proof. intros (e & He & _). discriminate He. Qed.

End Float64Arithmetic.

(** * Claims about the program on floats *)

Section Float64Claims.

Import PrimFloat SpecFloat FloatOps FloatAxioms.
Import Float64.
Local Open Scope float_scope.

(** C3, the claim as stated fails.  Spot 100, strike 100, one year, rate 0,
    volatility 1000: [u] overflows to [inf] and [d] underflows to 0, so
    [p = 0] passes the no-arbitrage test, the upper payoff is [inf], and the
    price [0 * inf + 1 * 0] is NaN, which is not [>= 0]. *)
Lemma price_nan_on_overflow :
  Float64.binomial_one_step np_exp_sample 100 100 1 0 1000 "call" = ret nan
  /\ (0 <=? nan) = false.
Proof. split; vm_compute; reflexivity. Qed.

(** C3, as amended.  With an [np.exp] that returns no negative number,
    whenever the pricer returns a value, for any option type, the value is
    [>= 0] or NaN: it is never negative. *)
Theorem price_nonneg_or_nan (np_exp : float -> float)
    (S K T r sigma v : float) (option_type : string) :
  (forall x, (np_exp x <? 0) = false) ->
  Float64.binomial_one_step np_exp S K T r sigma option_type = ret v ->
  (0 <=? v) = true \/ v = nan.
Proof.
  intros Hexp Hret. apply not_negative_cases.
  destruct (f64_branches np_exp S K T r sigma option_type)
    as [(_ & H) | [(_ & _ & H) | [(_ & _ & _ & H)
        | [(_ & _ & _ & _ & H) | (_ & _ & _ & Hp & H)]]]];
    rewrite H in Hret; try discriminate Hret.
  injection Hret as <-.
  apply orb_false_iff in Hp. destruct Hp as [Hp0 Hp1].
  apply nonneg_round_2, nonneg_mul; [apply Hexp |].
  apply nonneg_add; apply nonneg_mul; trivial.
  - destruct (String.eqb option_type "call"); apply nonneg_py_max_0.
  - now apply nonneg_one_minus.
  - destruct (String.eqb option_type "call"); apply nonneg_py_max_0.
Qed.

Lemma price_nonneg_or_nan_witness :
  (0 <=? 0x1.910a3d70a3d71p+5) = true \/ 0x1.910a3d70a3d71p+5 = nan.
Proof.
  apply (price_nonneg_or_nan np_exp_sample 100.125 50 4 0 0.25 _ "call").
  - exact np_exp_sample_nonneg.
  - vm_compute. reflexivity.
Defined.

(** C6.  Every error the pricer raises falls in exactly one of three
    categories, told apart by the error's message: InvalidArgument for a
    bad option type or for one of [S <= 0], [K <= 0], [T <= 0],
    [sigma <= 0]; DegenerateModel when the arguments pass these checks and
    the floats [u] and [d] compare equal; ArbitrageViolation when the
    arguments pass, [u] and [d] differ and [p < 0] or [p > 1]. *)
Theorem error_taxonomy (np_exp : float -> float)
    (S K T r sigma : float) (option_type : string) :
  let res := Float64.binomial_one_step np_exp S K T r sigma option_type in
  let u := np_exp (sigma * sqrt T) in
  let d := np_exp (- sigma * sqrt T) in
  let p := (np_exp (r * T) - d) / (u - d) in
  (forall e, res = raise e -> exists c, category e = Some c)
  /\ (forall c1 c2,
        Float64.raises c1 res -> Float64.raises c2 res -> c1 = c2)
  /\ (Float64.raises InvalidArgument res
      <-> ~ known_option_type option_type
          \/ Float64.nonpositive_input S K T sigma)
  /\ (Float64.raises DegenerateModel res
      <-> known_option_type option_type
          /\ ~ Float64.nonpositive_input S K T sigma
          /\ (u =? d) = true)
  /\ (Float64.raises ArbitrageViolation res
      <-> known_option_type option_type
          /\ ~ Float64.nonpositive_input S K T sigma
          /\ (u =? d) = false
          /\ ((p <? 0) = true \/ (1 <? p) = true)).
Proof.
  cbv zeta.
  split; [| split].
  - intros e He.
    destruct (f64_branches np_exp S K T r sigma option_type)
      as [(_ & H) | [(_ & _ & H) | [(_ & _ & _ & H)
          | [(_ & _ & _ & _ & H) | (_ & _ & _ & _ & H)]]]];
      rewrite H in He; try discriminate He;
      injection He as <-; eexists; reflexivity.
  - intros c1 c2 (e1 & He1 & Hc1) (e2 & He2 & Hc2).
    rewrite He1 in He2. injection He2 as <-. congruence.
  - destruct (f64_branches np_exp S K T r sigma option_type)
      as [(Hk & H) | [(Hk & Hnp & H) | [(Hk & Hnp & Hud & H)
          | [(Hk & Hnp & Hud & Hgate & H) | (Hk & Hnp & Hud & Hgate & H)]]]];
      try apply orb_true_iff in Hgate; try apply orb_false_iff in Hgate;
      rewrite H;
      rewrite ?f64_raises_raise, ?category_option_type, ?category_positive,
        ?category_equal_factors, ?category_no_arbitrage;
      repeat split; intros;
      repeat match goal with
             | X : _ /\ _ |- _ => destruct X
             | X : Float64.raises _ (ret _) |- _ =>
                 now apply f64_raises_ret in X
             end;
      try discriminate; try congruence; try tauto;
      match goal with
      | X : _ = true \/ _ = true |- _ => destruct X; congruence
      end.
Qed.

(** The DegenerateModel exit is taken: with volatility [2^-60] both
    factors are the float 1. *)
Lemma error_taxonomy_witness :
  Float64.raises DegenerateModel
    (Float64.binomial_one_step np_exp_sample 100 100 1 0 0x1p-60 "call").
Proof.
  apply (error_taxonomy np_exp_sample 100 100 1 0 0x1p-60 "call").
  split; [now left |]. split; [| vm_compute; reflexivity].
  intros [H | [H | [H | H]]]; vm_compute in H; discriminate H.
Defined.




(** * Further properties of the program on floats *)



(** The first alternative is the one taken there. *)
Example nan_spot_returns_nan :
  Float64.binomial_one_step np_exp_sample nan 100 4 0 0.25 "put" = ret nan.
Proof. vm_compute. reflexivity. Qed.

(** X11.  The no-arbitrage test lets a NaN probability through: both
    [p < 0] and [p > 1] are false on NaN, so on arguments that pass the
    earlier checks a NaN [p] is not reported and the pricer returns NaN. *)
Theorem nan_probability_is_priced (np_exp : float -> float)
    (S K T r sigma : float) (option_type : string) :
  let u := np_exp (sigma * sqrt T) in
  let d := np_exp (- sigma * sqrt T) in
  known_option_type option_type ->
  ~ Float64.nonpositive_input S K T sigma ->
  (u =? d) = false ->
  (np_exp (r * T) - d) / (u - d) = nan ->
  Float64.binomial_one_step np_exp S K T r sigma option_type = ret nan.
Proof.
  cbv zeta. intros Hk Hpos Hud Hp.
  destruct (f64_branches np_exp S K T r sigma option_type)
    as [(Hbad & _) | [(_ & Hnp & _) | [(_ & _ & Heq & _)
        | [(_ & _ & _ & Hgate & _) | (_ & _ & _ & _ & H)]]]];
    try contradiction; try congruence.
  - rewrite Hp in Hgate. discriminate Hgate.
  - rewrite H, Hp. f_equal.
    rewrite ?mul_nan_l, ?add_nan_l, ?mul_nan_r. apply round_nan_2.
Qed.

Lemma nan_probability_is_priced_witness :
  Float64.binomial_one_step np_exp_sample 100 100 1 2000 1000 "put"
  = ret nan.
Proof.
  apply (nan_probability_is_priced np_exp_sample 100 100 1 2000 1000 "put").
  - now right.
  - intros [H | [H | [H | H]]]; vm_compute in H; discriminate H.
  - vm_compute. reflexivity.
  - vm_compute. reflexivity.
Defined.

End Float64Claims.
